(** * Strophe.js SASL mechanism contract (src/core.js, class SASLMechanism)

    A shallow embedding of the [SASLMechanism] base class, of the
    [Strophe] namespace object and of the mechanism selection described
    by the specification, with the properties of the mechanism contract
    and of the namespace functions proved over it. *)

From Stdlib Require Import ZArith String List Sorted Lia.
From stdpp Require Import gmap strings list fin_maps pretty.

Local Open Scope Z_scope.
Local Open Scope string_scope.

(** ** JavaScript values

    The class stores whatever it is handed, so fields and arguments are
    JavaScript values.  Numbers are the integer-valued ones (priorities
    are documented as integers); objects other than the receiver are
    references into the rest of the program's heap. *)

Inductive value : Type :=
  | VUndefined
  | VNull
  | VBool (b : bool)
  | VNum (n : Z)
  | VStr (s : string)
  | VObj (r : positive).

(** ECMAScript [ToBoolean], the coercion behind [!x] and [if (x)]. *)
Definition ToBoolean (v : value) : bool :=
  match v with
  | VUndefined | VNull => false
  | VBool b => b
  | VNum n => negb (n =? 0)%Z
  | VStr s => negb (String.eqb s "")
  | VObj _ => true
  end.

(** [new Error(message)]. *)
Inductive JSError : Type :=
  | Error (message : string).

(** How a call ends: it returns a value or it throws. *)
Inductive completion (A : Type) : Type :=
  | Return (a : A)
  | Throw (e : JSError).

Arguments Return {A} a.
Arguments Throw {A} e.

(** ** Method calls

    A method runs against its receiver [this], a JavaScript object seen
    as a finite map from property names to values, and against the rest
    of the program state [world] (connection objects and the like), which
    overriding methods of subclasses may read and change. *)

Section Calls.
Context {World : Type}.

Record state : Type := State {
  this : gmap string value;
  world : World
}.

Definition Method (A : Type) : Type := state -> completion A * state.

Definition ret {A : Type} (a : A) : Method A :=
  fun s => (Return a, s).

Definition throw {A : Type} (e : JSError) : Method A :=
  fun s => (Throw e, s).

Definition bind {A B : Type} (m : Method A) (k : A -> Method B) : Method B :=
  fun s =>
    match m s with
    | (Return a, s') => k a s'
    | (Throw e, s') => (Throw e, s')
    end.

(** [this.k]: a property that was never assigned reads as [undefined]. *)
Definition get_field (k : string) : Method value :=
  fun s => (Return (default VUndefined (this s !! k)), s).

(** [this.k = v]. *)
Definition set_field (k : string) (v : value) : Method unit :=
  fun s => (Return tt, {| this := <[k := v]> (this s); world := world s |}).
End Calls.

Arguments state World : clear implicits.
Arguments Method World A : clear implicits.

Declare Scope method_scope.
Delimit Scope method_scope with method.
Notation "x <- m ;; k" := (bind m (fun x => k))
  (at level 100, m at next level, right associativity) : method_scope.
Notation "m ;; k" := (bind m (fun _ => k))
  (at level 100, right associativity) : method_scope.

(** ** class SASLMechanism *)

Module SASLMechanism.
Section Class.
Context {World : Type}.
Local Open Scope method_scope.

(** The methods a subclass overrides and the base class reaches through
    [this]: [clientChallenge] calls [this.onChallenge]. *)
Class Overrides : Type := {
  this_onChallenge : value -> value -> Method World value
}.

(** [constructor(name, isClientFirst, priority)]: the three assignments
    of the constructor body, run on the object under construction. *)
Definition constructor (name isClientFirst priority : value) : Method World value :=
  set_field "mechname" name ;;
  set_field "isClientFirst" isClientFirst ;;
  set_field "priority" priority ;;
  ret VUndefined.

(** [test()]: declared without parameters; callers pass the connection,
    which is ignored. *)
Definition test (connection : value) : Method World value :=
  ret (VBool true).

(** [onStart(connection)] *)
Definition onStart (connection : value) : Method World value :=
  set_field "_connection" connection ;;
  ret VUndefined.

(** [onChallenge(connection, challenge)] of the base class. *)
Definition onChallenge (connection challenge : value) : Method World value :=
  throw (Error "You should implement challenge handling!").

(** [clientChallenge(connection)]: the call [this.onChallenge(connection)]
    passes no challenge, so the callee sees [undefined]. *)
Definition clientChallenge {overrides : Overrides} (connection : value) : Method World value :=
  isClientFirst <- get_field "isClientFirst" ;;
  if negb (ToBoolean isClientFirst) then
    throw (Error "clientChallenge should not be called if isClientFirst is false!")
  else
    this_onChallenge connection VUndefined.

(** [onFailure()] *)
Definition onFailure : Method World value :=
  set_field "_connection" VNull ;;
  ret VUndefined.

(** [onSuccess()] *)
Definition onSuccess : Method World value :=
  set_field "_connection" VNull ;;
  ret VUndefined.

(** The base class itself: nothing overridden. *)
Definition Base : Overrides := {| this_onChallenge := onChallenge |}.

(** [new SASLMechanism(name, isClientFirst, priority)]: the constructor
    run on a fresh object. *)
Definition new (name isClientFirst priority : value) (w : World) : state World :=
  snd (constructor name isClientFirst priority {| this := ∅; world := w |}).

(** [mechanism.priority = p], the assignment the class documentation
    gives user code to re-rank a mechanism. *)
Definition assign_priority (p : value) : Method World unit :=
  set_field "priority" p.
End Class.
End SASLMechanism.

(** ** Registry and selector *)

Module Selector.

(** Modelled from the spec: the mechanism template of the data model
    (section 3), with the applicability check of the contract
    (section 4.1).  The registry and the selection code of the
    connection are not among the sources. *)
Record Mechanism : Type := {
  name : string;
  is_client_first : bool;
  priority : Z;
  test : value -> bool
}.

(** Modelled from the spec: the registry maps names to templates; its
    keys are unique and the order of registration is kept for the
    tie-break.  It is a list of bindings, oldest registration first. *)
Definition Registry : Type := list (string * Mechanism).

Definition unique_keys (registry : Registry) : Prop := NoDup registry.*1.

(** Modelled from the spec: the outcome of a selection, a mechanism or
    the [NoCompatibleMechanism] condition. *)
Inductive selection : Type :=
  | Selected (m : Mechanism)
  | NoCompatibleMechanism.

(** Modelled from the spec: a binding takes part in a selection when its
    key is among the names the server advertised and its [test] accepts
    the connection. *)
Definition compatible (advertised : list string) (connection : value)
    (binding : string * Mechanism) : Prop :=
  binding.1 ∈ advertised ∧ test binding.2 connection = true.

#[global] Instance compatible_dec advertised connection binding :
  Decision (compatible advertised connection binding).
Proof. unfold compatible. apply _. Defined.

(** Modelled from the spec: section 4.3, intersect and discard. *)
Definition candidates (registry : Registry) (advertised : list string)
    (connection : value) : Registry :=
  filter (compatible advertised connection) registry.

(** Modelled from the spec: section 4.3, the highest priority, the
    earlier registration winning a tie. *)
Fixpoint highest (best : Mechanism) (rest : Registry) : Mechanism :=
  match rest with
  | [] => best
  | (_, m) :: rest' =>
      if (priority best <? priority m)%Z then highest m rest'
      else highest best rest'
  end.

(** Modelled from the spec: section 4.3, the whole selection. *)
Definition select (registry : Registry) (advertised : list string)
    (connection : value) : selection :=
  match candidates registry advertised connection with
  | [] => NoCompatibleMechanism
  | (_, m) :: rest => Selected (highest m rest)
  end.

(** Modelled from the spec: the embedding application re-ranks one
    mechanism; priority is data of the template. *)
Definition with_priority (p : Z) (m : Mechanism) : Mechanism :=
  {| name := name m; is_client_first := is_client_first m;
     priority := p; test := test m |}.

Definition override (key : string) (p : Z) (registry : Registry) : Registry :=
  (λ binding : string * Mechanism,
     if decide (binding.1 = key) then (binding.1, with_priority p binding.2)
     else binding) <$> registry.

(** The object a template stands for: the class constructor applied to
    the template's data. *)
Definition instantiate {World : Type} (m : Mechanism) (w : World) : state World :=
  SASLMechanism.new (VStr (name m)) (VBool (is_client_first m))
    (VNum (priority m)) w.

End Selector.

(** ** Concrete variants *)

Module Variants.

(** Modelled from the spec: the nine concrete mechanisms (section 4.2);
    their modules (sasl-sha512.js, sasl-plain.js, ...) are not among
    the sources. *)
Inductive variant : Type :=
  | SCRAM_SHA_512 | SCRAM_SHA_384 | SCRAM_SHA_256 | SCRAM_SHA_1
  | PLAIN | OAUTHBEARER | X_OAUTH2 | ANONYMOUS | EXTERNAL.

Definition all : list variant :=
  [SCRAM_SHA_512; SCRAM_SHA_384; SCRAM_SHA_256; SCRAM_SHA_1;
   PLAIN; OAUTHBEARER; X_OAUTH2; ANONYMOUS; EXTERNAL].

(** Modelled from the spec: the SASL names of the variants. *)
Definition mechname (v : variant) : string :=
  match v with
  | SCRAM_SHA_512 => "SCRAM-SHA-512"
  | SCRAM_SHA_384 => "SCRAM-SHA-384"
  | SCRAM_SHA_256 => "SCRAM-SHA-256"
  | SCRAM_SHA_1 => "SCRAM-SHA-1"
  | PLAIN => "PLAIN"
  | OAUTHBEARER => "OAUTHBEARER"
  | X_OAUTH2 => "X-OAUTH2"
  | ANONYMOUS => "ANONYMOUS"
  | EXTERNAL => "EXTERNAL"
  end.

(** Modelled from the spec: the default priorities, as the class
    documentation of [SASLMechanism] lists them. *)
Definition default_priority (v : variant) : Z :=
  match v with
  | SCRAM_SHA_512 => 72
  | SCRAM_SHA_384 => 71
  | SCRAM_SHA_256 => 70
  | SCRAM_SHA_1 => 60
  | PLAIN => 50
  | OAUTHBEARER => 40
  | X_OAUTH2 => 30
  | ANONYMOUS => 20
  | EXTERNAL => 10
  end.

(** Modelled from the spec: the template a variant registers by
    default.  Who speaks first and the applicability check belong to
    the variant's own module and are left open. *)
Definition template (v : variant) (client_first : bool)
    (applicable : value -> bool) : Selector.Mechanism :=
  {| Selector.name := mechname v;
     Selector.is_client_first := client_first;
     Selector.priority := default_priority v;
     Selector.test := applicable |}.

End Variants.

(** ** Concrete runs

    The inputs on which the properties below are replayed. *)

Module Scenario.

(** A connection object somewhere in the heap, and another one. *)
Definition connection : value := VObj 1.
Definition other_connection : value := VObj 2.

(** A server-first and a client-first instance of the base class. *)
Definition server_first : state unit :=
  SASLMechanism.new (VStr "ANONYMOUS") (VBool false) (VNum 20) tt.

Definition client_first : state unit :=
  SASLMechanism.new (VStr "PLAIN") (VBool true) (VNum 50) tt.

(** A subclass whose [onChallenge] answers and records the connection it
    answered for. *)
Definition answering : SASLMechanism.Overrides (World := unit) :=
  {| SASLMechanism.this_onChallenge := fun connection challenge s =>
       (Return (VStr "response"),
        {| this := <["answered" := connection]> (this s); world := world s |}) |}.

Definition always : value -> bool := fun _ => true.

(** The registries of the specification's end-to-end scenarios. *)
Definition plain_and_anonymous : Selector.Registry :=
  [("PLAIN", Variants.template Variants.PLAIN true always);
   ("ANONYMOUS", Variants.template Variants.ANONYMOUS true always)].

Definition external_only : Selector.Registry :=
  [("EXTERNAL", Variants.template Variants.EXTERNAL true always)].

(** Two mechanisms of equal priority, to watch the tie-break. *)
Definition tied : Selector.Registry :=
  [("PLAIN", Variants.template Variants.PLAIN true always);
   ("X-PLAIN", Selector.with_priority 50
                 (Variants.template Variants.OAUTHBEARER true always));
   ("EXTERNAL", Variants.template Variants.EXTERNAL true always)].

End Scenario.

(** ** The Strophe namespace object (src/core.js, const Strophe) *)

Module Strophe.

#[global] Instance value_eq_dec : EqDecision value.
Proof. solve_decision. Defined.

(** [a === b] on the values modelled here: same kind and same content,
    references equal when they name the same object. *)
Definition strict_equal (a b : value) : bool := bool_decide (a = b).

(** [typeof v]; a reference may also name a function, whose [typeof] is
    ["function"]. *)
Definition typeof (v : value) : string :=
  match v with
  | VUndefined => "undefined"
  | VNull => "object"
  | VBool _ => "boolean"
  | VNum _ => "number"
  | VStr _ => "string"
  | VObj _ => "object"
  end.

(** What the functions of [Strophe] reach besides the scalar properties
    of [Strophe] itself: the objects held in [Strophe.NS],
    [Strophe.LogLevel] (both imported from constants.js, their contents
    are not among the sources) and [Strophe._connectionPlugins], and the
    global [console].  [console] is [None] when the global is [null] or
    [undefined]; otherwise it holds what was passed to [console.error],
    oldest first. *)
Record globals : Type := Globals {
  NS : gmap string value;
  LogLevel : gmap string value;
  _connectionPlugins : gmap string value;
  console : option (list value)
}.

(** The object literal: [VERSION], [_requestId: 0] and
    [_connectionPlugins: {}], around the imported tables. *)
Definition initial (ns loglevel : gmap string value)
    (out : option (list value)) : state globals :=
  {| this := <["_requestId" := VNum 0]> (<["VERSION" := VStr "1.6.1"]> ∅);
     world := {| NS := ns; LogLevel := loglevel;
                 _connectionPlugins := ∅; console := out |} |}.

(** The names that denote an entry of a plain object such as
    [Strophe.NS] and [Strophe._connectionPlugins].  [__proto__] does
    not: on a plain object it is the accessor inherited from
    [Object.prototype], and assigning to it creates no entry. *)
Definition entry_name (name : string) : Prop := name ≠ "__proto__".

Section Functions.
(** ECMAScript [ToString] as the [+] of a string and a value applies it.
    On a reference it depends on the object named, so it is left open. *)
Context (ToString : value -> string).
Local Open Scope method_scope.

(** [log] is documented as overridable by user code; the logging
    functions reach it through [this.log]. *)
Class Overrides : Type := {
  this_log : value -> value -> Method globals value
}.

(** [addNamespace(name, value)]: [Strophe.NS[name] = value], for an
    [entry_name]. *)
Definition addNamespace (name : string) (v : value) : Method globals value :=
  fun s =>
    (Return VUndefined,
     {| this := this s;
        world := {| NS := <[name := v]> (NS (world s));
                    LogLevel := LogLevel (world s);
                    _connectionPlugins := _connectionPlugins (world s);
                    console := console (world s) |} |}).

(** [addConnectionPlugin(name, ptype)]:
    [Strophe._connectionPlugins[name] = ptype], for an [entry_name]. *)
Definition addConnectionPlugin (name : string) (ptype : value) : Method globals value :=
  fun s =>
    (Return VUndefined,
     {| this := this s;
        world := {| NS := NS (world s);
                    LogLevel := LogLevel (world s);
                    _connectionPlugins := <[name := ptype]> (_connectionPlugins (world s));
                    console := console (world s) |} |}).

(** [console?.error(msg)] *)
Definition console_error (msg : value) : Method globals unit :=
  fun s =>
    (Return tt,
     {| this := this s;
        world := {| NS := NS (world s);
                    LogLevel := LogLevel (world s);
                    _connectionPlugins := _connectionPlugins (world s);
                    console := (fun out => out ++ [msg])%list <$> console (world s) |} |}).

(** [this.LogLevel.k] *)
Definition get_LogLevel (k : string) : Method globals value :=
  fun s => (Return (default VUndefined (LogLevel (world s) !! k)), s).

(** [log(level, msg)] *)
Definition log (level msg : value) : Method globals value :=
  FATAL <- get_LogLevel "FATAL" ;;
  (if strict_equal level FATAL then console_error msg else ret tt) ;;
  ret VUndefined.

(** [debug(msg)] *)
Definition debug {overrides : Overrides} (msg : value) : Method globals value :=
  level <- get_LogLevel "DEBUG" ;;
  this_log level msg ;;
  ret VUndefined.

(** [info(msg)] *)
Definition info {overrides : Overrides} (msg : value) : Method globals value :=
  level <- get_LogLevel "INFO" ;;
  this_log level msg ;;
  ret VUndefined.

(** [warn(msg)] *)
Definition warn {overrides : Overrides} (msg : value) : Method globals value :=
  level <- get_LogLevel "WARN" ;;
  this_log level msg ;;
  ret VUndefined.

(** [error(msg)] *)
Definition error {overrides : Overrides} (msg : value) : Method globals value :=
  level <- get_LogLevel "ERROR" ;;
  this_log level msg ;;
  ret VUndefined.

(** [fatal(msg)] *)
Definition fatal {overrides : Overrides} (msg : value) : Method globals value :=
  level <- get_LogLevel "FATAL" ;;
  this_log level msg ;;
  ret VUndefined.

(** [text + v] with a string on the left. *)
Definition plus (text : string) (v : value) : string :=
  text +:+ ToString v.

(** [_handleError(e)], called on [Strophe] with an error object [e],
    given by its properties. *)
Definition _handleError {overrides : Overrides} (e : gmap string value) : Method globals value :=
  let e_ (k : string) : value := default VUndefined (e !! k) in
  (if negb (String.eqb (typeof (e_ "stack")) "undefined") then fatal (e_ "stack")
   else ret VUndefined) ;;
  (if ToBoolean (e_ "sourceURL") then
     handler <- get_field "handler" ;;
     fatal (VStr (plus (plus (plus (plus (plus ("error: ") handler +:+ " ")
                    (e_ "sourceURL") +:+ ":") (e_ "line") +:+ " - ")
                    (e_ "name") +:+ ": ") (e_ "message")))
   else if ToBoolean (e_ "fileName") then
     handler <- get_field "handler" ;;
     fatal (VStr (plus (plus (plus (plus (plus ("error: ") handler +:+ " ")
                    (e_ "fileName") +:+ ":") (e_ "lineNumber") +:+ " - ")
                    (e_ "name") +:+ ": ") (e_ "message")))
   else
     fatal (VStr (plus "error: " (e_ "message")))) ;;
  ret VUndefined.

(** The namespace as shipped: [log] not overridden. *)
Definition Default : Overrides := {| this_log := log |}.

End Functions.
End Strophe.

(** ** Concrete runs of the namespace functions *)

Module NamespaceScenario.

(** [ToString] on primitives; every plain object prints alike. *)
Definition primitive_ToString (v : value) : string :=
  match v with
  | VUndefined => "undefined"
  | VNull => "null"
  | VBool true => "true"
  | VBool false => "false"
  | VNum n => pretty n
  | VStr s => s
  | VObj _ => "[object Object]"
  end.

(** The log levels of constants.js as the class documentation orders
    them, and a table that lacks them. *)
Definition levels : gmap string value :=
  <["FATAL" := VNum 4]> (<["ERROR" := VNum 3]> (<["WARN" := VNum 2]>
    (<["INFO" := VNum 1]> (<["DEBUG" := VNum 0]> ∅)))).

Definition with_console : state Strophe.globals :=
  Strophe.initial ∅ levels (Some []).

Definition without_console : state Strophe.globals :=
  Strophe.initial ∅ levels None.

(** An error object as WebKit fills it, and a bare one. *)
Definition webkit_error : gmap string value :=
  <["stack" := VStr "f@app.js:3"]> (<["sourceURL" := VStr "app.js"]>
    (<["line" := VNum 3]> (<["name" := VStr "TypeError"]>
      (<["message" := VStr "boom"]> ∅)))).

Definition bare_error : gmap string value :=
  <["message" := VStr "boom"]> ∅.

(** User code that replaces [Strophe.log] by a function keeping the
    messages in [Strophe.kept] instead of printing them. *)
Definition keeping : Strophe.Overrides :=
  {| Strophe.this_log := fun level msg s =>
       (Return VUndefined,
        {| this := <["kept" := msg]> (this s); world := world s |}) |}.

End NamespaceScenario.


(** * Properties of the base class *)

Section Contract.
Context {World : Type}.
Implicit Types (s : state World) (connection challenge : value).

Import SASLMechanism.

(** The state a terminal hook leaves: the receiver with [_connection]
    set to [null], everything else as it was. *)
Lemma onFailure_eq s :
  onFailure s =
  (Return VUndefined,
   {| this := <["_connection" := VNull]> (this s); world := world s |}).
Proof. reflexivity. Qed.

Lemma onSuccess_eq s :
  onSuccess s =
  (Return VUndefined,
   {| this := <["_connection" := VNull]> (this s); world := world s |}).
Proof. reflexivity. Qed.

Lemma onStart_eq connection s :
  onStart connection s =
  (Return VUndefined,
   {| this := <["_connection" := connection]> (this s); world := world s |}).
Proof. reflexivity. Qed.

(** The guard of [clientChallenge] is JavaScript truthiness of the
    [isClientFirst] property. *)
Lemma clientChallenge_falsy `{Overrides (World := World)} connection s :
  ToBoolean (default VUndefined (this s !! "isClientFirst")) = false ->
  clientChallenge connection s =
  (Throw (Error "clientChallenge should not be called if isClientFirst is false!"), s).
Proof.
  intros Hfalsy. unfold clientChallenge, bind, get_field; cbn.
  now rewrite Hfalsy.
Qed.

Lemma clientChallenge_truthy `{Overrides (World := World)} connection s :
  ToBoolean (default VUndefined (this s !! "isClientFirst")) = true ->
  clientChallenge connection s = this_onChallenge connection VUndefined s.
Proof.
  intros Htruthy. unfold clientChallenge, bind, get_field; cbn.
  now rewrite Htruthy.
Qed.

(** C1: on a mechanism whose [isClientFirst] is [false],
    [clientChallenge] throws for every connection.  The outcome is the
    same error and the untouched state whatever [onChallenge] the
    mechanism carries, so [onChallenge] is not invoked and nothing else
    happens. *)
Theorem clientChallenge_server_first_throws
    (overrides : Overrides (World := World)) connection s :
  this s !! "isClientFirst" = Some (VBool false) ->
  clientChallenge connection s =
  (Throw (Error "clientChallenge should not be called if isClientFirst is false!"), s).
Proof.
  intros Hfield. apply clientChallenge_falsy. now rewrite Hfield.
Qed.

(** C3: [onFailure] and [onSuccess] both return normally and leave
    [_connection] set to [null], from every state (so also when
    [onStart] never ran and the property does not exist yet); calling
    either one again on the released state returns normally and gives
    back that very state. *)
Theorem terminal_hooks_release_once s :
  let released :=
    {| this := <["_connection" := VNull]> (this s); world := world s |} in
  (onFailure s = (Return VUndefined, released) ∧
   onSuccess s = (Return VUndefined, released)) ∧
  this released !! "_connection" = Some VNull ∧
  (onFailure released = (Return VUndefined, released) ∧
   onSuccess released = (Return VUndefined, released)) ∧
  (∀ name isClientFirst priority (w : World),
     this (new name isClientFirst priority w) !! "_connection" = None ∧
     fst (onFailure (new name isClientFirst priority w)) = Return VUndefined ∧
     fst (onSuccess (new name isClientFirst priority w)) = Return VUndefined).
Proof.
  intros released.
  assert (Hagain : <["_connection" := VNull]> (this released) = this released)
    by (unfold released; cbn; apply insert_insert_eq).
  split; [split; reflexivity |].
  split; [apply lookup_insert_eq |].
  split.
  - rewrite onFailure_eq, onSuccess_eq, Hagain. split; reflexivity.
  - intros name isClientFirst priority w. split; [| split]; reflexivity.
Qed.

(** C4: on a mechanism whose [isClientFirst] is [true],
    [clientChallenge(connection)] is the mechanism's [onChallenge] called
    on that connection with no challenge: same result or same error, same
    final state.  [onSuccess] and [onFailure] act alike on every state. *)
Theorem clientChallenge_client_first_delegates
    (overrides : Overrides (World := World)) connection s :
  (this s !! "isClientFirst" = Some (VBool true) ->
   clientChallenge connection s = this_onChallenge connection VUndefined s) ∧
  onSuccess s = onFailure s.
Proof.
  split; [| reflexivity].
  intros Hfield. apply clientChallenge_truthy. now rewrite Hfield.
Qed.

(** C5: the default [test] returns [true] for every connection and every
    state and changes nothing, also when it is called again. *)
Theorem test_default_applicable connection s :
  test connection s = (Return (VBool true), s) ∧
  ∀ connection', test connection' (snd (test connection s)) = (Return (VBool true), s).
Proof. split; reflexivity. Qed.

(** C6: the default [onChallenge] throws for every connection and every
    challenge; it never returns a response and changes nothing. *)
Theorem onChallenge_default_throws connection challenge s :
  onChallenge connection challenge s =
  (Throw (Error "You should implement challenge handling!"), s) ∧
  ∀ response s', onChallenge connection challenge s ≠ (Return response, s').
Proof. split; [reflexivity | intros response s' Heq; discriminate Heq]. Qed.

(** C8: a second [onStart] returns normally and overwrites the stored
    connection: after [onStart(c1)] then [onStart(c2)] the mechanism is
    in the state [onStart(c2)] alone gives, with [_connection] bound to
    [c2]. *)
Theorem onStart_rebinds (c1 c2 : value) s :
  let once := snd (onStart c1 s) in
  let twice := snd (onStart c2 once) in
  this once !! "_connection" = Some c1 ∧
  fst (onStart c2 once) = Return VUndefined ∧
  this twice !! "_connection" = Some c2 ∧
  onStart c2 once = onStart c2 s.
Proof.
  intros once twice. subst once twice. rewrite !onStart_eq; cbn.
  split; [apply lookup_insert_eq |].
  split; [reflexivity |].
  split; [apply lookup_insert_eq |].
  now rewrite insert_insert_eq.
Qed.

(** C9: [onStart], [onFailure] and [onSuccess] change no property of the
    receiver other than [_connection], and nothing outside the receiver;
    in particular [mechname], [isClientFirst] and [priority] still hold
    what the constructor stored. *)
Theorem lifecycle_frame connection s :
  (∀ k : string, k ≠ "_connection" ->
     this (snd (onStart connection s)) !! k = this s !! k ∧
     this (snd (onFailure s)) !! k = this s !! k ∧
     this (snd (onSuccess s)) !! k = this s !! k) ∧
  (world (snd (onStart connection s)) = world s ∧
   world (snd (onFailure s)) = world s ∧
   world (snd (onSuccess s)) = world s) ∧
  (∀ name isClientFirst priority (w : World),
     Forall (λ op : Method World value,
       let after := this (snd (op (new name isClientFirst priority w))) in
       after !! "mechname" = Some name ∧
       after !! "isClientFirst" = Some isClientFirst ∧
       after !! "priority" = Some priority)
     [onStart connection; onFailure; onSuccess]).
Proof.
  split; [| split].
  - intros k Hk. rewrite onStart_eq, onFailure_eq, onSuccess_eq; cbn.
    repeat split; now apply lookup_insert_ne.
  - repeat split.
  - intros name isClientFirst priority w.
    repeat constructor; cbn; now simplify_map_eq.
Qed.

(** C10: the default [test] does not look at its connection: two calls
    with any two connections, [null] and [undefined] included, agree on
    the result and on the state they leave; the result is the same from
    any two states as well. *)
Theorem test_ignores_connection (c1 c2 : value) s :
  test c1 s = test c2 s ∧
  test VNull s = test c1 s ∧
  test VUndefined s = test c1 s ∧
  ∀ s' : state World, fst (test c1 s) = fst (test c2 s').
Proof. repeat split. Qed.

End Contract.

(** * Properties of the selector *)

Section Selection.
Import Selector.
Local Open Scope list_scope.
Implicit Types (registry : Registry) (advertised : list string)
  (connection : value) (m : Mechanism) (binding : string * Mechanism).

(** A split of a filtered list comes from a split of the list itself. *)
Lemma filter_middle {A : Type} (P : A -> Prop) `{!∀ x, Decision (P x)}
    (l l1 l2 : list A) (x : A) :
  filter P l = l1 ++ x :: l2 ->
  ∃ r1 r2, l = r1 ++ x :: r2 ∧ filter P r1 = l1 ∧ filter P r2 = l2 ∧ P x.
Proof.
  revert l1. induction l as [| a l IH]; intros l1 Hsplit.
  - rewrite filter_nil in Hsplit. now destruct l1.
  - rewrite filter_cons in Hsplit. destruct (decide (P a)) as [Ha | Ha].
    + destruct l1 as [| b l1]; cbn in Hsplit; injection Hsplit as -> Hrest.
      * exists [], l. now rewrite filter_nil.
      * destruct (IH _ Hrest) as (r1 & r2 & -> & <- & <- & Hx).
        exists (b :: r1), r2. now rewrite filter_cons_True.
    + destruct (IH _ Hsplit) as (r1 & r2 & -> & <- & <- & Hx).
      exists (a :: r1), r2. now rewrite filter_cons_False.
Qed.

(** [highest] never falls below the mechanism it starts from. *)
Lemma highest_ge_start m (rest : Registry) :
  (priority m <= priority (highest m rest))%Z.
Proof.
  revert m. induction rest as [| [k1 m1] rest IH]; intros m; cbn; [lia |].
  destruct (Z.ltb_spec (priority m) (priority m1)).
  - specialize (IH m1). lia.
  - apply IH.
Qed.

(** [highest] returns an element of the list it scans that beats every
    element before it and is not beaten by any after it. *)
Lemma highest_split (k0 : string) m (rest : Registry) :
  ∃ k earlier later,
    (k0, m) :: rest = earlier ++ (k, highest m rest) :: later ∧
    (∀ b, b ∈ earlier -> (priority b.2 < priority (highest m rest))%Z) ∧
    (∀ b, b ∈ later -> (priority b.2 <= priority (highest m rest))%Z).
Proof.
  revert k0 m. induction rest as [| [k1 m1] rest IH]; intros k0 m; cbn.
  - exists k0, [], []. split; [reflexivity |].
    split; intros b Hb; now apply elem_of_nil in Hb.
  - destruct (Z.ltb_spec (priority m) (priority m1)) as [Hlt | Hge].
    + destruct (IH k1 m1) as (k & earlier & later & Hsplit & Hearlier & Hlater).
      exists k, ((k0, m) :: earlier), later.
      split; [cbn; f_equal; exact Hsplit |].
      split; [| exact Hlater].
      intros b [-> | Hb]%elem_of_cons; [| now apply Hearlier].
      pose proof (highest_ge_start m1 rest). cbn. lia.
    + destruct (IH k0 m) as (k & earlier & later & Hsplit & Hearlier & Hlater).
      pose proof (highest_ge_start m rest) as Hstart.
      destruct earlier as [| b0 earlier]; cbn in Hsplit.
      * injection Hsplit as Hk Hm Hrest.
        exists k, [], ((k1, m1) :: rest).
        split; [cbn; now rewrite <- Hk, <- Hm |].
        split; [intros b Hb; now apply elem_of_nil in Hb |].
        intros b [-> | Hb]%elem_of_cons; [cbn; lia |].
        apply Hlater. now rewrite <- Hrest.
      * injection Hsplit as Hhead Hrest. subst b0.
        exists k, ((k0, m) :: (k1, m1) :: earlier), later.
        split; [cbn; do 2 f_equal; exact Hrest |].
        split; [| exact Hlater].
        assert (priority m < priority (highest m rest))%Z as Hm
          by (apply (Hearlier (k0, m)); left).
        intros b [-> | [-> | Hb]%elem_of_cons]%elem_of_cons; cbn; [lia | lia |].
        apply Hearlier. now right.
Qed.

(** What [select] returns, in terms of the registry. *)
Lemma select_sound registry advertised connection :
  match select registry advertised connection with
  | Selected m =>
      ∃ key earlier later,
        registry = earlier ++ (key, m) :: later ∧
        compatible advertised connection (key, m) ∧
        (∀ b, b ∈ earlier -> compatible advertised connection b ->
              (priority b.2 < priority m)%Z) ∧
        (∀ b, b ∈ later -> compatible advertised connection b ->
              (priority b.2 <= priority m)%Z)
  | NoCompatibleMechanism =>
      ∀ b, b ∈ registry -> ¬ compatible advertised connection b
  end.
Proof.
  unfold select, candidates.
  destruct (filter (compatible advertised connection) registry)
    as [| [k0 m0] rest] eqn:Hfilter.
  - intros b Hb Hcompatible.
    now apply (filter_nil_not_elem_of _ _ b Hfilter Hcompatible).
  - destruct (highest_split k0 m0 rest)
      as (k & earlier & later & Hsplit & Hearlier & Hlater).
    rewrite Hsplit in Hfilter.
    apply filter_middle in Hfilter as (r1 & r2 & -> & <- & <- & Hkm).
    exists k, r1, r2. split; [reflexivity |]. split; [exact Hkm |].
    split; intros b Hb Hcompatible.
    + apply Hearlier. now apply list_elem_of_filter.
    + apply Hlater. now apply list_elem_of_filter.
Qed.

(** With unique keys a key is bound to one template. *)
Lemma unique_keys_lookup registry (key : string) m1 m2 :
  unique_keys registry ->
  (key, m1) ∈ registry -> (key, m2) ∈ registry -> m1 = m2.
Proof.
  unfold unique_keys.
  induction registry as [| [k m] registry IH]; intros Hnodup H1 H2.
  - now apply elem_of_nil in H1.
  - rewrite fmap_cons in Hnodup. apply NoDup_cons in Hnodup as [Hfresh Hnodup].
    apply elem_of_cons in H1 as [H1 | H1]; apply elem_of_cons in H2 as [H2 | H2].
    + congruence.
    + injection H1 as <- _. exfalso. apply Hfresh.
      apply list_elem_of_fmap. now exists (key, m2).
    + injection H2 as <- _. exfalso. apply Hfresh.
      apply list_elem_of_fmap. now exists (key, m1).
    + now apply IH.
Qed.

(** C2: for every registry, every advertised list and every connection,
    [select] returns a template bound in the registry under an
    advertised name whose [test] accepts the connection, of the highest
    priority among all such bindings; among equals it returns the one
    registered first.  It answers [NoCompatibleMechanism], an ordinary
    result, exactly when no binding is compatible. *)
Theorem select_highest_compatible registry advertised connection :
  match select registry advertised connection with
  | Selected m =>
      ∃ key earlier later,
        registry = earlier ++ (key, m) :: later ∧
        (key ∈ advertised ∧ test m connection = true) ∧
        (∀ b, b ∈ earlier -> compatible advertised connection b ->
              (priority b.2 < priority m)%Z) ∧
        (∀ b, b ∈ later -> compatible advertised connection b ->
              (priority b.2 <= priority m)%Z)
  | NoCompatibleMechanism => True
  end ∧
  (select registry advertised connection = NoCompatibleMechanism ↔
   ∀ b, b ∈ registry -> ¬ compatible advertised connection b).
Proof.
  pose proof (select_sound registry advertised connection) as Hsound.
  destruct (select registry advertised connection) as [m |].
  - split; [exact Hsound |].
    destruct Hsound as (key & earlier & later & -> & Hkm & _).
    split; [discriminate |].
    intros Hnone. exfalso. apply (Hnone (key, m)); [| exact Hkm].
    apply elem_of_app. right. left.
  - split; [exact I |]. split; [intros _; exact Hsound | reflexivity].
Qed.

(** Re-ranking the binding of a compatible key above every other
    compatible binding makes [select] return it. *)
Lemma select_override registry advertised connection (key : string) m (p : Z) :
  unique_keys registry ->
  (key, m) ∈ registry ->
  compatible advertised connection (key, m) ->
  (∀ b, b ∈ registry -> b.1 ≠ key -> compatible advertised connection b ->
        (priority b.2 < p)%Z) ->
  select (override key p registry) advertised connection =
  Selected (with_priority p m).
Proof.
  intros Hunique Hin Hcompatible Hbelow.
  assert ((key, with_priority p m) ∈ override key p registry) as Hin'.
  { apply list_elem_of_fmap. exists (key, m). split; [| exact Hin].
    cbn. now rewrite decide_True. }
  pose proof (select_sound (override key p registry) advertised connection)
    as Hsound.
  destruct (select (override key p registry) advertised connection) as [m' |].
  - destruct Hsound as (k' & earlier & later & Hsplit & Hkm' & Hearlier & Hlater).
    assert ((k', m') ∈ override key p registry) as Hm'
      by (rewrite Hsplit; apply elem_of_app; right; left).
    apply list_elem_of_fmap in Hm' as ([k0 m0] & Heq & Hm0). cbn in Heq.
    destruct (decide (k0 = key)) as [-> | Hother].
    + injection Heq as -> ->.
      now rewrite (unique_keys_lookup registry key m0 m Hunique Hm0 Hin).
    + injection Heq as -> ->. exfalso.
      pose proof (Hbelow (k0, m0) Hm0 Hother Hkm') as Hlow. cbn in Hlow.
      rewrite Hsplit in Hin'.
      apply elem_of_app in Hin' as [Hin' | [Hin' | Hin']%elem_of_cons].
      * specialize (Hearlier _ Hin' Hcompatible). cbn in Hearlier. lia.
      * congruence.
      * specialize (Hlater _ Hin' Hcompatible). cbn in Hlater. lia.
  - exfalso. exact (Hsound _ Hin' Hcompatible).
Qed.

End Selection.

(** * The concrete variants *)

Section DefaultPriorities.
Context {World : Type}.
Import Selector Variants.

(** C7: the default priorities of the nine variants are 72, 71, 70, 60,
    50, 40, 30, 20, 10, strictly descending from SCRAM-SHA-512 to
    EXTERNAL.  A default is data of the mechanism object: user code
    assigns [priority] and gets the object the constructor would have
    built with the new priority, and the unchanged [select] then ranks
    the mechanism by the value assigned. *)
Theorem default_priorities_descend_and_yield :
  (default_priority <$> all = [72; 71; 70; 60; 50; 40; 30; 20; 10]%Z ∧
   StronglySorted
     (λ stronger weaker, (default_priority stronger > default_priority weaker)%Z)
     all) ∧
  (∀ (v : variant) client_first applicable (p : Z) (w : World),
     let built := instantiate (template v client_first applicable) w in
     this built !! "mechname" = Some (VStr (Variants.mechname v)) ∧
     this built !! "priority" = Some (VNum (default_priority v)) ∧
     SASLMechanism.assign_priority (VNum p) built =
     (Return tt,
      instantiate (with_priority p (template v client_first applicable)) w)) ∧
  (∀ registry advertised connection (key : string) m (p : Z),
     unique_keys registry ->
     (key, m) ∈ registry ->
     compatible advertised connection (key, m) ->
     (∀ b, b ∈ registry -> b.1 ≠ key -> compatible advertised connection b ->
           (priority b.2 < p)%Z) ->
     select (override key p registry) advertised connection =
     Selected (with_priority p m)).
Proof.
  split; [split |]; [reflexivity | | split].
  - repeat constructor.
  - intros v client_first applicable p w built. subst built.
    unfold instantiate, SASLMechanism.new, SASLMechanism.assign_priority; cbn.
    split; [now simplify_map_eq |]. split; [now simplify_map_eq |].
    unfold set_field; cbn. now rewrite insert_insert_eq.
  - intros registry advertised connection key m p.
    apply select_override.
Qed.

End DefaultPriorities.

(** * The properties replayed on concrete runs *)

Section Runs.
Import Scenario.
Local Open Scope list_scope.

Example select_plain_scenario :
  Selector.select plain_and_anonymous ["PLAIN"; "ANONYMOUS"] connection =
  Selector.Selected (Variants.template Variants.PLAIN true always).
Proof. reflexivity. Qed.

Example select_disjoint_scenario :
  Selector.select external_only ["PLAIN"] connection =
  Selector.NoCompatibleMechanism.
Proof. reflexivity. Qed.

Example select_tie_scenario :
  Selector.select tied ["X-PLAIN"; "EXTERNAL"; "PLAIN"] connection =
  Selector.Selected (Variants.template Variants.PLAIN true always).
Proof. reflexivity. Qed.

Example base_client_first_scenario :
  SASLMechanism.clientChallenge (overrides := SASLMechanism.Base) connection client_first =
  (Throw (Error "You should implement challenge handling!"), client_first).
Proof. reflexivity. Qed.

Lemma clientChallenge_server_first_throws_witness :
  this server_first !! "isClientFirst" = Some (VBool false) ∧
  SASLMechanism.clientChallenge (overrides := answering) connection server_first =
  (Throw (Error "clientChallenge should not be called if isClientFirst is false!"),
   server_first).
Proof.
  split; [reflexivity |].
  apply (clientChallenge_server_first_throws answering connection server_first).
  reflexivity.
Defined.

Lemma clientChallenge_client_first_delegates_witness :
  this client_first !! "isClientFirst" = Some (VBool true) ∧
  SASLMechanism.clientChallenge (overrides := answering) connection client_first =
  SASLMechanism.this_onChallenge (Overrides := answering)
    connection VUndefined client_first.
Proof.
  split; [reflexivity |].
  apply (clientChallenge_client_first_delegates answering connection client_first).
  reflexivity.
Defined.

Lemma lifecycle_frame_witness :
  "priority" ≠ "_connection" ∧
  this (snd (SASLMechanism.onStart connection client_first)) !! "priority" =
  this client_first !! "priority".
Proof.
  split; [discriminate |].
  apply (lifecycle_frame connection client_first). discriminate.
Defined.

Lemma select_highest_compatible_witness :
  (∀ b, b ∈ external_only -> ¬ Selector.compatible ["PLAIN"] connection b) ∧
  Selector.select external_only ["PLAIN"] connection =
  Selector.NoCompatibleMechanism.
Proof.
  assert (∀ b, b ∈ external_only -> ¬ Selector.compatible ["PLAIN"] connection b)
    as Hnone.
  { intros b [-> | Hb]%elem_of_cons [Hname _]; cbn in *.
    - apply elem_of_cons in Hname as [Hname | Hname]; [discriminate |].
      now apply elem_of_nil in Hname.
    - now apply elem_of_nil in Hb. }
  split; [exact Hnone |].
  apply (select_highest_compatible external_only ["PLAIN"] connection).
  exact Hnone.
Defined.

Lemma default_priorities_descend_and_yield_witness :
  Selector.select
    (Selector.override "ANONYMOUS" 80 plain_and_anonymous)
    ["PLAIN"; "ANONYMOUS"] connection =
  Selector.Selected
    (Selector.with_priority 80 (Variants.template Variants.ANONYMOUS true always)).
Proof.
  apply (proj2 (proj2 (default_priorities_descend_and_yield (World := unit)))).
  - unfold Selector.unique_keys. cbn.
    apply NoDup_cons. split; [| apply NoDup_singleton].
    intros Hin%list_elem_of_singleton. discriminate.
  - right. left.
  - split; [right; left | reflexivity].
  - intros b [-> | [-> | Hb]%elem_of_cons]%elem_of_cons Hkey _; cbn in *.
    + lia.
    + congruence.
    + now apply elem_of_nil in Hb.
Defined.

End Runs.


(** * Properties of the namespace object *)

Section Namespace.
Import Strophe.
Context (ToString : value -> string).
Implicit Types (s : state globals) (msg level v : value) (name : string).
Local Open Scope list_scope.

Lemma strict_equal_refl v : strict_equal v v = true.
Proof. unfold strict_equal. now apply bool_decide_eq_true_2. Qed.

(** The default [log] in one step. *)
Lemma log_eq level msg s :
  log level msg s =
  (Return VUndefined,
   if strict_equal level (default VUndefined (LogLevel (world s) !! "FATAL"))
   then snd (console_error msg s) else s).
Proof.
  unfold log, bind, get_LogLevel; cbn.
  now destruct (strict_equal level _).
Qed.

(** Without a console [console?.error] is skipped. *)
Lemma console_error_absent msg s :
  console (world s) = None -> console_error msg s = (Return tt, s).
Proof.
  destruct s as [t [ns ll cp out]]; cbn. intros ->. reflexivity.
Qed.

(** A logging function under the default [log]: it reads its level and
    lets [log] compare it with [FATAL]. *)
Lemma level_call_eq (key : string) msg s :
  bind (get_LogLevel key)
    (fun l => bind (this_log (Overrides := Default) l msg)
                (fun _ => ret VUndefined)) s =
  (Return VUndefined,
   if strict_equal (default VUndefined (LogLevel (world s) !! key))
        (default VUndefined (LogLevel (world s) !! "FATAL"))
   then snd (console_error msg s) else s).
Proof.
  unfold bind at 1. unfold get_LogLevel at 1. cbn.
  unfold bind. now rewrite log_eq.
Qed.

Lemma fatal_eq msg s :
  fatal (overrides := Default) msg s = (Return VUndefined, snd (console_error msg s)).
Proof.
  unfold fatal. rewrite level_call_eq. now rewrite strict_equal_refl.
Qed.

(** The state with something else on the console. *)
Lemma fatal_console msg s (out : list value) :
  console (world s) = Some out ->
  fatal (overrides := Default) msg s =
  (Return VUndefined,
   {| this := this s;
      world := {| NS := NS (world s); LogLevel := LogLevel (world s);
                  _connectionPlugins := _connectionPlugins (world s);
                  console := Some (out ++ [msg]) |} |}).
Proof.
  intros Hout. rewrite fatal_eq. unfold console_error; cbn. now rewrite Hout.
Qed.

Lemma fatal_absent msg s :
  console (world s) = None ->
  fatal (overrides := Default) msg s = (Return VUndefined, s).
Proof.
  intros Hnone. rewrite fatal_eq. now rewrite console_error_absent.
Qed.

(** X1: for an entry name, [addNamespace(name, value)] returns
    normally, makes [Strophe.NS[name]] hold [value], and leaves every
    other namespace, the log levels, the plugins, the console and the
    scalar properties of [Strophe] as they were. *)
Theorem addNamespace_lookup name v s :
  entry_name name ->
  let s' := snd (addNamespace name v s) in
  fst (addNamespace name v s) = Return VUndefined ∧
  NS (world s') !! name = Some v ∧
  (∀ other : string, other ≠ name ->
     NS (world s') !! other = NS (world s) !! other) ∧
  LogLevel (world s') = LogLevel (world s) ∧
  _connectionPlugins (world s') = _connectionPlugins (world s) ∧
  console (world s') = console (world s) ∧
  this s' = this s.
Proof.
  intros _. cbn. split; [reflexivity |]. split; [apply lookup_insert_eq |].
  split; [| repeat split].
  intros other Hother. now apply lookup_insert_ne.
Qed.


(** X3: after a series of [addConnectionPlugin] calls under entry names
    the plugin table holds, for each name, the prototype of the last
    call made under that name, and what it held before for the names
    never registered; nothing else of the state changes. *)
Theorem addConnectionPlugin_series (plugins : list (string * value)) s :
  Forall (fun plugin => entry_name plugin.1) plugins ->
  let final :=
    foldl (fun st plugin => snd (addConnectionPlugin plugin.1 plugin.2 st))
      s plugins in
  _connectionPlugins (world final) =
    list_to_map (reverse plugins) ∪ _connectionPlugins (world s) ∧
  NS (world final) = NS (world s) ∧
  LogLevel (world final) = LogLevel (world s) ∧
  console (world final) = console (world s) ∧
  this final = this s.
Proof.
  intros _. revert s.
  induction plugins as [| [name ptype] plugins IH]; intros s.
  - cbn. split; [| repeat split]. now rewrite (left_id_L ∅ (∪)).
  - cbn [foldl fst snd].
    destruct (IH (snd (addConnectionPlugin name ptype s)))
      as (Htable & Hns & Hlevels & Hconsole & Hthis).
    cbv zeta. rewrite Htable, Hns, Hlevels, Hconsole, Hthis.
    split; [| now repeat split].
    rewrite reverse_cons, list_to_map_app, list_to_map_cons, list_to_map_nil.
    rewrite insert_empty, <- (assoc_L (∪)), <- insert_union_singleton_l.
    reflexivity.
Qed.

(** X4: the namespace table and the plugin table are separate: a call of
    [addNamespace] and a call of [addConnectionPlugin] give the same
    state in either order, also under one and the same name, and
    neither call shows in the other table. *)
Theorem addNamespace_addConnectionPlugin_independent
    (n1 n2 : string) (v ptype : value) s :
  entry_name n1 -> entry_name n2 ->
  snd (addConnectionPlugin n2 ptype (snd (addNamespace n1 v s))) =
  snd (addNamespace n1 v (snd (addConnectionPlugin n2 ptype s))) ∧
  NS (world (snd (addConnectionPlugin n2 ptype s))) = NS (world s) ∧
  _connectionPlugins (world (snd (addNamespace n1 v s))) =
  _connectionPlugins (world s).
Proof. intros _ _. repeat split. Qed.

(** X5: under the default [log], [debug], [info], [warn] and [error]
    write nothing and change nothing exactly when the value of their
    level in [LogLevel] differs from the value of [FATAL]; when it
    equals it (as when both entries are missing) they do what [fatal]
    does. *)
Theorem lower_levels_filtered msg s :
  let level (key : string) := default VUndefined (LogLevel (world s) !! key) in
  Forall (fun call : string * (value -> Method globals value) =>
            call.2 msg s =
            if strict_equal (level call.1) (level "FATAL")
            then fatal (overrides := Default) msg s
            else (Return VUndefined, s))
    [("DEBUG", debug (overrides := Default));
     ("INFO", info (overrides := Default));
     ("WARN", warn (overrides := Default));
     ("ERROR", error (overrides := Default))].
Proof.
  intros level. subst level.
  repeat (apply List.Forall_cons; [cbn [fst snd]; cbv beta |]);
    [.. | apply List.Forall_nil].
  1: unfold debug. 2: unfold info. 3: unfold warn. 4: unfold error.
  all: rewrite level_call_eq, fatal_eq; now destruct (strict_equal _ _).
Qed.

(** X6: under the default [log] and with a console, [fatal(msg)] passes
    [msg] to [console.error] once, after everything written before,
    whatever [LogLevel] contains; it returns normally and changes
    nothing else. *)
Theorem fatal_reaches_console msg s (out : list value) :
  console (world s) = Some out ->
  ∃ s', fatal (overrides := Default) msg s = (Return VUndefined, s') ∧
        console (world s') = Some (out ++ [msg]) ∧
        NS (world s') = NS (world s) ∧
        LogLevel (world s') = LogLevel (world s) ∧
        _connectionPlugins (world s') = _connectionPlugins (world s) ∧
        this s' = this s.
Proof.
  intros Hout. eexists. split; [exact (fatal_console msg s out Hout) |].
  cbn. repeat split.
Qed.

(** [_handleError] under the default [log]: the stack when there is
    one, then one line that starts with ["error: "]. *)
Lemma handleError_eq (e : gmap string value) s :
  ∃ rest : string,
    _handleError ToString (overrides := Default) e s =
    (Return VUndefined,
     snd (console_error (VStr ("error: " +:+ rest))
            (if String.eqb (typeof (default VUndefined (e !! "stack"))) "undefined"
             then s
             else snd (console_error (default VUndefined (e !! "stack")) s)))).
Proof.
  unfold _handleError. cbv zeta.
  set (stack := default VUndefined (e !! "stack")).
  unfold bind at 1.
  destruct (String.eqb (typeof stack) "undefined"); cbn [negb].
  - cbn [ret]. unfold bind at 1.
    destruct (ToBoolean (default VUndefined (e !! "sourceURL")));
      [| destruct (ToBoolean (default VUndefined (e !! "fileName")))];
      unfold bind, get_field; rewrite fatal_eq; eexists; reflexivity.
  - rewrite fatal_eq. unfold bind at 1.
    destruct (ToBoolean (default VUndefined (e !! "sourceURL")));
      [| destruct (ToBoolean (default VUndefined (e !! "fileName")))];
      unfold bind, get_field; rewrite fatal_eq; eexists; reflexivity.
Qed.

(** X7: when the global [console] is [null] or [undefined], the default
    [log], the five logging functions and [_handleError] return normally
    and leave the whole state as it was. *)
Theorem no_console_no_effect level msg (e : gmap string value) s :
  console (world s) = None ->
  Forall (fun call : Method globals value => call s = (Return VUndefined, s))
    [log level msg;
     debug (overrides := Default) msg;
     info (overrides := Default) msg;
     warn (overrides := Default) msg;
     error (overrides := Default) msg;
     fatal (overrides := Default) msg;
     _handleError ToString (overrides := Default) e].
Proof.
  intros Hnone.
  assert (∀ m, snd (console_error m s) = s) as Hskip
    by (intros m; now rewrite console_error_absent).
  repeat (apply List.Forall_cons; [cbv beta |]); [.. | apply List.Forall_nil].
  - rewrite log_eq, Hskip. now destruct (strict_equal _ _).
  - unfold debug. rewrite level_call_eq, Hskip. now destruct (strict_equal _ _).
  - unfold info. rewrite level_call_eq, Hskip. now destruct (strict_equal _ _).
  - unfold warn. rewrite level_call_eq, Hskip. now destruct (strict_equal _ _).
  - unfold error. rewrite level_call_eq, Hskip. now destruct (strict_equal _ _).
  - now apply fatal_absent.
  - destruct (handleError_eq e s) as (rest & ->).
    rewrite Hskip. destruct (String.eqb _ _); now rewrite Hskip.
Qed.

(** X8: with a console and the default [log], [_handleError(e)] returns
    normally and adds to the console, after what was there, [e.stack]
    when it is not [undefined] and then exactly one line starting with
    ["error: "]; it changes nothing else. *)
Theorem handleError_reports (e : gmap string value) s (out : list value) :
  console (world s) = Some out ->
  ∃ (rest : string) (s' : state globals),
    _handleError ToString (overrides := Default) e s = (Return VUndefined, s') ∧
    console (world s') =
      Some (out ++
            match default VUndefined (e !! "stack") with
            | VUndefined => []
            | stack => [stack]
            end ++ [VStr ("error: " +:+ rest)]) ∧
    NS (world s') = NS (world s) ∧
    LogLevel (world s') = LogLevel (world s) ∧
    _connectionPlugins (world s') = _connectionPlugins (world s) ∧
    this s' = this s.
Proof.
  intros Hout. destruct (handleError_eq e s) as (rest & Heq).
  exists rest. eexists. split; [exact Heq |].
  destruct (default VUndefined (e !! "stack")); cbn; rewrite Hout; cbn;
    rewrite <- ?(assoc_L (++)); repeat split.
Qed.

(** X9: when [e.sourceURL] is truthy the report is built from
    [sourceURL] and [line]: [e.fileName] and [e.lineNumber] play no part,
    whatever [log] is in place. *)
Theorem handleError_sourceURL_first (overrides : Overrides)
    (e : gmap string value) (fileName lineNumber : value) s :
  ToBoolean (default VUndefined (e !! "sourceURL")) = true ->
  _handleError ToString
    (<["fileName" := fileName]> (<["lineNumber" := lineNumber]> e)) s =
  _handleError ToString e s.
Proof.
  intros Htruthy. unfold _handleError. cbv zeta.
  rewrite !lookup_insert_ne by discriminate.
  now rewrite Htruthy.
Qed.

(** X14: only [log] writes to the console.  When the [log] installed in
    [Strophe] leaves the console alone, so do the five logging functions
    and [_handleError], whether that [log] returns or throws. *)
Theorem console_written_by_log_only (overrides : Overrides) msg
    (e : gmap string value) s :
  (∀ level' msg' s0,
     console (world (snd (this_log level' msg' s0))) = console (world s0)) ->
  Forall (fun call : Method globals value =>
            console (world (snd (call s))) = console (world s))
    [debug msg; info msg; warn msg; error msg; fatal msg;
     _handleError ToString e].
Proof.
  intros Hquiet.
  assert (∀ (key : string) msg' s0,
            console (world (snd (bind (get_LogLevel key)
              (fun l => bind (this_log l msg') (fun _ => ret VUndefined)) s0))) =
            console (world s0)) as Hcall.
  { intros key msg' s0. unfold bind, get_LogLevel; cbn.
    specialize (Hquiet (default VUndefined (LogLevel (world s0) !! key)) msg' s0).
    now destruct (this_log _ msg' s0) as [[r | err] s1]. }
  assert (∀ msg' s0, console (world (snd (fatal msg' s0))) = console (world s0))
    as Hfatal by (intros msg' s0; apply Hcall).
  repeat (apply List.Forall_cons; [cbv beta |]); [.. | apply List.Forall_nil];
    try apply Hcall.
  unfold _handleError. cbv zeta.
  set (first := if negb _ then _ else _).
  set (second := if ToBoolean _ then _ else _).
  assert (console (world (snd (first s))) = console (world s)) as Hfirst
    by (subst first; destruct (negb _); [apply Hfatal | reflexivity]).
  assert (∀ s0, console (world (snd (second s0))) = console (world s0)) as Hsecond.
  { intros s0. subst second.
    destruct (ToBoolean _); [| destruct (ToBoolean _)];
      try apply Hfatal; unfold bind at 1, get_field; cbn; apply Hfatal. }
  unfold bind. destruct (first s) as [[r | err] s1]; cbn in Hfirst |- *;
    [| exact Hfirst].
  specialize (Hsecond s1).
  destruct (second s1) as [[r' | err] s2]; cbn in Hsecond |- *; congruence.
Qed.

End Namespace.

(** * Further properties of the mechanism class *)

Section MechanismUse.
Context {World : Type}.
Import SASLMechanism.
Implicit Types (s : state World) (connection : value).
Local Open Scope list_scope.

(** X10: on a constructed mechanism the guard of [clientChallenge] is
    the truthiness of what was passed as [isClientFirst]: a falsy
    argument ([undefined] as when it is omitted, [null], [false], [0],
    the empty string) makes the call throw and change nothing, any other
    argument makes it the mechanism's [onChallenge] without challenge. *)
Theorem clientChallenge_guard_truthiness (overrides : Overrides (World := World))
    (name isClientFirst priority : value) (w : World) connection :
  let mechanism := new name isClientFirst priority w in
  clientChallenge connection mechanism =
    (if ToBoolean isClientFirst
     then this_onChallenge connection VUndefined mechanism
     else (Throw (Error "clientChallenge should not be called if isClientFirst is false!"),
           mechanism)) ∧
  Forall (fun falsy =>
            clientChallenge connection (new name falsy priority w) =
            (Throw (Error "clientChallenge should not be called if isClientFirst is false!"),
             new name falsy priority w))
    [VUndefined; VNull; VBool false; VNum 0; VStr ""].
Proof.
  intros mechanism. split.
  - assert (default VUndefined (this mechanism !! "isClientFirst") = isClientFirst)
      as Hstored by (subst mechanism; cbn; now simplify_map_eq).
    destruct (ToBoolean isClientFirst) eqn:Hguard.
    + apply clientChallenge_truthy. now rewrite Hstored.
    + apply clientChallenge_falsy. now rewrite Hstored.
  - repeat (apply List.Forall_cons; [cbv beta |]); [.. | apply List.Forall_nil];
      apply clientChallenge_falsy; cbn; now simplify_map_eq.
Qed.

(** X11: the base class cannot answer: its [clientChallenge] throws for
    every receiver and connection, whatever [isClientFirst] holds, and
    leaves the state as it was; after [onStart] the mechanism is still
    bound to the connection it was started on. *)
Theorem base_clientChallenge_throws (c0 connection : value) s :
  (∃ message,
     clientChallenge (overrides := Base) connection s = (Throw (Error message), s)) ∧
  this (snd (clientChallenge (overrides := Base) connection (snd (onStart c0 s))))
    !! "_connection" = Some c0.
Proof.
  assert (∀ s0 : state World, ∃ message,
            clientChallenge (overrides := Base) connection s0 =
            (Throw (Error message), s0)) as Hthrows.
  { intros s0.
    destruct (ToBoolean (default VUndefined (this s0 !! "isClientFirst"))) eqn:Hguard.
    - eexists. rewrite clientChallenge_truthy by exact Hguard. reflexivity.
    - eexists. now apply clientChallenge_falsy. }
  split; [apply Hthrows |].
  destruct (Hthrows (snd (onStart c0 s))) as (message & ->).
  rewrite onStart_eq; cbn. apply lookup_insert_eq.
Qed.

(** X12: a finished attempt leaves no trace of its connection: releasing
    after [onStart] gives the state releasing alone gives, and a new
    [onStart] after that gives the state it gives on the mechanism as it
    was before the first attempt. *)
Theorem mechanism_reusable (c1 c2 : value) s :
  Forall (fun release : Method World value =>
            snd (release (snd (onStart c1 s))) = snd (release s) ∧
            onStart c2 (snd (release (snd (onStart c1 s)))) = onStart c2 s)
    [onFailure; onSuccess].
Proof.
  repeat (apply List.Forall_cons; [cbv beta |]); [.. | apply List.Forall_nil];
    rewrite ?onFailure_eq, ?onSuccess_eq, !onStart_eq; cbn;
    rewrite ?onFailure_eq, ?onSuccess_eq, ?onStart_eq; cbn;
    now rewrite !insert_insert_eq.
Qed.


End MechanismUse.

(** * The further properties replayed on concrete runs *)

Section NamespaceRuns.
Import Strophe NamespaceScenario.
Local Open Scope list_scope.

Example real_levels_scenario :
  Forall (fun call : value -> Method globals value =>
            call (VStr "m") with_console = (Return VUndefined, with_console))
    [debug (overrides := Default); info (overrides := Default);
     warn (overrides := Default); error (overrides := Default)].
Proof. repeat constructor. Qed.

Example handleError_webkit_scenario :
  console (world (snd (_handleError primitive_ToString (overrides := Default)
                         webkit_error with_console))) =
  Some [VStr "f@app.js:3"; VStr "error: undefined app.js:3 - TypeError: boom"].
Proof. reflexivity. Qed.

Lemma addNamespace_lookup_witness :
  entry_name "PUBSUB" ∧
  NS (world (snd (addNamespace "PUBSUB" (VStr "http://jabber.org/protocol/pubsub")
                    with_console))) !! "PUBSUB" =
  Some (VStr "http://jabber.org/protocol/pubsub").
Proof.
  assert (entry_name "PUBSUB") as Hname by discriminate.
  split; [exact Hname |].
  apply (addNamespace_lookup "PUBSUB" (VStr "http://jabber.org/protocol/pubsub")
           with_console Hname).
Defined.


Lemma addConnectionPlugin_series_witness :
  Forall (fun plugin : string * value => entry_name plugin.1)
    [("roster", VObj 7); ("muc", VObj 8); ("roster", VObj 9)] ∧
  _connectionPlugins (world
    (foldl (fun st plugin => snd (addConnectionPlugin plugin.1 plugin.2 st))
       with_console [("roster", VObj 7); ("muc", VObj 8); ("roster", VObj 9)]))
    !! "roster" = Some (VObj 9).
Proof.
  assert (Forall (fun plugin : string * value => entry_name plugin.1)
            [("roster", VObj 7); ("muc", VObj 8); ("roster", VObj 9)]) as Hnames
    by (repeat constructor; discriminate).
  split; [exact Hnames |].
  rewrite (proj1 (addConnectionPlugin_series _ with_console Hnames)).
  reflexivity.
Defined.

Lemma addNamespace_addConnectionPlugin_independent_witness :
  (entry_name "PUBSUB" ∧ entry_name "roster") ∧
  snd (addConnectionPlugin "roster" (VObj 7)
         (snd (addNamespace "PUBSUB" (VStr "p") with_console))) =
  snd (addNamespace "PUBSUB" (VStr "p")
         (snd (addConnectionPlugin "roster" (VObj 7) with_console))).
Proof.
  assert (entry_name "PUBSUB") as H1 by discriminate.
  assert (entry_name "roster") as H2 by discriminate.
  split; [now split |].
  apply (addNamespace_addConnectionPlugin_independent "PUBSUB" "roster"
           (VStr "p") (VObj 7) with_console H1 H2).
Defined.

Lemma console_written_by_log_only_witness :
  (∀ level' msg' s0,
     console (world (snd (this_log (Overrides := keeping) level' msg' s0))) =
     console (world s0)) ∧
  console (world (snd (_handleError primitive_ToString (overrides := keeping)
                         webkit_error with_console))) = Some [].
Proof.
  assert (∀ level' msg' s0,
     console (world (snd (this_log (Overrides := keeping) level' msg' s0))) =
     console (world s0)) as Hquiet by reflexivity.
  split; [exact Hquiet |].
  pose proof (console_written_by_log_only primitive_ToString keeping (VStr "m")
                webkit_error with_console Hquiet) as Hall.
  apply Forall_inv_tail in Hall. apply Forall_inv_tail in Hall.
  apply Forall_inv_tail in Hall. apply Forall_inv_tail in Hall.
  apply Forall_inv_tail in Hall. apply Forall_inv in Hall.
  exact Hall.
Defined.

Lemma fatal_reaches_console_witness :
  console (world with_console) = Some [] ∧
  ∃ s', fatal (overrides := Default) (VStr "lost") with_console =
        (Return VUndefined, s') ∧
        console (world s') = Some [VStr "lost"].
Proof.
  split; [reflexivity |].
  destruct (fatal_reaches_console (VStr "lost") with_console [] eq_refl)
    as (s' & Hrun & Hout & _).
  exists s'. split; [exact Hrun | exact Hout].
Defined.

Lemma no_console_no_effect_witness :
  console (world without_console) = None ∧
  Forall (fun call : Method globals value =>
            call without_console = (Return VUndefined, without_console))
    [log (VNum 4) (VStr "m");
     debug (overrides := Default) (VStr "m");
     info (overrides := Default) (VStr "m");
     warn (overrides := Default) (VStr "m");
     error (overrides := Default) (VStr "m");
     fatal (overrides := Default) (VStr "m");
     _handleError primitive_ToString (overrides := Default) webkit_error].
Proof.
  split; [reflexivity |].
  apply (no_console_no_effect primitive_ToString (VNum 4) (VStr "m")
           webkit_error without_console).
  reflexivity.
Defined.

Lemma handleError_reports_witness :
  console (world with_console) = Some [] ∧
  ∃ (rest : string) (s' : state globals),
    _handleError primitive_ToString (overrides := Default) bare_error with_console =
    (Return VUndefined, s') ∧
    console (world s') = Some [VStr ("error: " +:+ rest)].
Proof.
  split; [reflexivity |].
  destruct (handleError_reports primitive_ToString bare_error with_console []
              eq_refl) as (rest & s' & Hrun & Hout & _).
  exists rest, s'. split; [exact Hrun | exact Hout].
Defined.

Lemma handleError_sourceURL_first_witness :
  ToBoolean (default VUndefined (webkit_error !! "sourceURL")) = true ∧
  _handleError primitive_ToString (overrides := Default)
    (<["fileName" := VStr "other.js"]> (<["lineNumber" := VNum 9]> webkit_error))
    with_console =
  _handleError primitive_ToString (overrides := Default) webkit_error with_console.
Proof.
  split; [reflexivity |].
  apply (handleError_sourceURL_first primitive_ToString Default webkit_error
           (VStr "other.js") (VNum 9) with_console).
  reflexivity.
Defined.


End NamespaceRuns.
